(** * Transform attribute payload (charon/payloads/transform_attribute.c)

    A shallow embedding of the IKEv2 transform attribute object of charon:
    the private struct, its accessors, [set_value] with its TV / TLV switch,
    the encoding rule table and the destructor, together with the allocator
    calls the code performs.  The allocator is threaded through the
    operations as explicit state, so that frees, failed allocations and
    double frees are observable. *)

From Stdlib Require Import ZArith Lia.
From Stdlib Require Import Strings.Byte.
From stdpp Require Import base option list gmap.

Local Open Scope Z_scope.

(** ** Types of the included headers *)

(** Modelled from the spec: [types.h] is not among the sources.  Of
    [status_t] this file only returns [SUCCESS] and [OUT_OF_RES] (the
    out-of-memory error). *)
Inductive status_t : Set :=
| SUCCESS
| OUT_OF_RES.

(** Modelled from the spec: [payload.h] is not among the sources.  The two
    payload type tags this file mentions: the chain terminator and the tag
    of the transform attribute itself. *)
Inductive payload_type_t : Set :=
| NO_PAYLOAD
| TRANSFORM_ATTRIBUTE.

(** Modelled from the spec: [encodings.h] is not among the sources.  The four
    field kinds used by the rule table: the 1-bit format flag, the 15-bit
    type, the 16-bit length-or-value word and the variable-length value. *)
Inductive encoding_type_t : Set :=
| ATTRIBUTE_FORMAT
| ATTRIBUTE_TYPE
| ATTRIBUTE_LENGTH_OR_VALUE
| ATTRIBUTE_VALUE.

(** The members of [private_transform_attribute_t]; [offsetof (s, f)] is
    kept symbolic as the member it designates. *)
Inductive member_t : Set :=
| m_public
| m_attribute_format
| m_attribute_type
| m_attribute_length_or_value
| m_attribute_value.

Record encoding_rule_t : Set := {
  type : encoding_type_t;
  offset : member_t
}.

(** ** Pointers and chunks *)

(** Addresses of blocks handed out by the allocator. *)
Abbreviation addr := positive (only parsing).

(** The pointers this file handles: NULL, a block of the allocator, and the
    address of the [attribute_length_or_value] member of the object itself
    (taken by [get_value]). *)
Inductive ptr_t : Set :=
| NULL
| Block (a : addr)
| Inline_length_or_value.

Global Instance ptr_t_eq_dec : EqDecision ptr_t.
Proof. solve_decision. Defined.

(** [chunk_t]: a pointer and a length ([size_t]). *)
Record chunk_t : Set := {
  ptr : ptr_t;
  len : Z
}.

(** A [chunk_t] passed in by the caller is represented by the bytes that are
    readable at its [ptr]; its [len] is their number.  This stands for a
    chunk in memory of the caller's own.  A chunk that points into the
    buffer the object holds (the view [get_value] returns in TLV form) is
    not represented: [set_value] frees that buffer before it reads the
    chunk, so what it then stores is not determined by these bytes. *)
Definition value_len (value : list byte) : Z := Z.of_nat (length value).

(** ** The allocator *)

(** What a live block holds: the bytes of a cloned chunk, or the storage of
    one [private_transform_attribute_t] (whose members are carried by the
    record below). *)
Inductive block_t : Set :=
| Bytes (bs : list byte)
| Thing.

(** Allocator state.  [outcomes] fixes, request by request, whether the
    coming allocations succeed ([true]) or return NULL ([false]); once the
    list is used up every request succeeds.  [free_log] lists the pointers
    given to [allocator_free], most recent first; [bad_frees] those among
    them that were not live blocks when freed (a double or invalid free). *)
Record allocator_t : Type := {
  blocks : gmap positive block_t;
  outcomes : list bool;
  free_log : list ptr_t;
  bad_frees : list ptr_t
}.

(** Computations that use the allocator. *)
Definition alloc (A : Type) : Type := allocator_t -> A * allocator_t.

Global Instance alloc_ret : MRet alloc := fun A x m => (x, m).
Global Instance alloc_bind : MBind alloc :=
  fun A B f c m => let '(x, m') := c m in f x m'.

Definition is_live (p : ptr_t) (m : allocator_t) : bool :=
  match p with
  | Block a => bool_decide (is_Some (blocks m !! a))
  | _ => false
  end.

Definition release (p : ptr_t) (bl : gmap positive block_t)
  : gmap positive block_t :=
  match p with
  | Block a => delete a bl
  | _ => bl
  end.

(** Modelled from the spec: [allocator_free] of [utils/allocator.h], which is
    not among the sources.  It gives the block at [p] back; freeing a
    pointer that is not a live block is recorded as a bad free. *)
Definition allocator_free (p : ptr_t) : alloc unit :=
  fun m =>
    (tt, {| blocks := release p (blocks m);
            outcomes := outcomes m;
            free_log := p :: free_log m;
            bad_frees := if is_live p m then bad_frees m
                         else p :: bad_frees m |}).

(** A request for a new block holding [b]: NULL when the allocator is out
    of memory, a fresh address otherwise. *)
Definition allocate (b : block_t) : alloc ptr_t :=
  fun m =>
    match outcomes m with
    | false :: rest =>
        (NULL, {| blocks := blocks m; outcomes := rest;
                  free_log := free_log m; bad_frees := bad_frees m |})
    | _ =>
        let a := fresh (dom (blocks m)) in
        (Block a, {| blocks := <[a := b]> (blocks m);
                     outcomes := tail (outcomes m);
                     free_log := free_log m; bad_frees := bad_frees m |})
    end.

(** Modelled from the spec: [allocator_clone_bytes] of [utils/allocator.h]:
    new storage holding a copy of the bytes, or NULL when allocation fails. *)
Definition allocator_clone_bytes (bytes : list byte) : alloc ptr_t :=
  allocate (Bytes bytes).

(** Modelled from the spec: [allocator_alloc_thing] of [utils/allocator.h]:
    storage for one object of the given type, or NULL. *)
Definition allocator_alloc_thing : alloc ptr_t :=
  allocate Thing.

(** ** Object representation of the 16-bit member *)

Inductive byte_order : Set :=
| Little_endian
| Big_endian.

Definition byte_to_Z (b : byte) : Z := Z.of_N (Byte.to_N b).

Definition byte_of_Z (z : Z) : byte :=
  default x00 (Byte.of_N (Z.to_N (z mod 256))).

(** Conversion to [u_int16_t]. *)
Definition to_u16 (z : Z) : Z := z mod 65536.

Section Host.

(** Byte order of the machine the code runs on. *)
Variable host : byte_order.

(** The two bytes of a [u_int16_t] as they lie in memory. *)
Definition u16_bytes (v : Z) : list byte :=
  match host with
  | Little_endian => [byte_of_Z v; byte_of_Z (v / 256)]
  | Big_endian => [byte_of_Z (v / 256); byte_of_Z v]
  end.

(** The [u_int16_t] whose memory holds the given two bytes. *)
Definition u16_of_bytes (bs : list byte) : Z :=
  match bs with
  | [b0; b1] =>
      match host with
      | Little_endian => byte_to_Z b0 + 256 * byte_to_Z b1
      | Big_endian => 256 * byte_to_Z b0 + byte_to_Z b1
      end
  | _ => 0
  end.

(** [memcpy (&field, src, n)] on a [u_int16_t] member, for [n <= 2]: the
    first [n] bytes of the member's storage are replaced by those of [src],
    the others stay. *)
Definition memcpy_u16 (field : Z) (src : list byte) (n : nat) : Z :=
  u16_of_bytes (take n src ++ drop n (u16_bytes field)).

(** ** The object *)

(** [private_transform_attribute_t] without its table of function
    pointers. *)
Record private_transform_attribute_t : Set := {
  attribute_format : bool;
  attribute_type : Z;
  attribute_length_or_value : Z;
  attribute_value : chunk_t
}.

Definition with_attribute_value (this : private_transform_attribute_t)
    (c : chunk_t) : private_transform_attribute_t :=
  {| attribute_format := attribute_format this;
     attribute_type := attribute_type this;
     attribute_length_or_value := attribute_length_or_value this;
     attribute_value := c |}.

Definition with_attribute_length_or_value
    (this : private_transform_attribute_t) (v : Z)
  : private_transform_attribute_t :=
  {| attribute_format := attribute_format this;
     attribute_type := attribute_type this;
     attribute_length_or_value := v;
     attribute_value := attribute_value this |}.

Definition with_attribute_format (this : private_transform_attribute_t)
    (f : bool) : private_transform_attribute_t :=
  {| attribute_format := f;
     attribute_type := attribute_type this;
     attribute_length_or_value := attribute_length_or_value this;
     attribute_value := attribute_value this |}.

Definition with_attribute_type (this : private_transform_attribute_t)
    (t : Z) : private_transform_attribute_t :=
  {| attribute_format := attribute_format this;
     attribute_type := t;
     attribute_length_or_value := attribute_length_or_value this;
     attribute_value := attribute_value this |}.

(** [transform_attribute_encodings]. *)
Definition transform_attribute_encodings : list encoding_rule_t :=
  [ {| type := ATTRIBUTE_FORMAT; offset := m_attribute_format |};
    {| type := ATTRIBUTE_TYPE; offset := m_attribute_type |};
    {| type := ATTRIBUTE_LENGTH_OR_VALUE;
       offset := m_attribute_length_or_value |};
    {| type := ATTRIBUTE_VALUE; offset := m_attribute_value |} ].

(** [destroy]: [self] is the address of the object. *)
Definition destroy (self : ptr_t) (this : private_transform_attribute_t)
  : alloc status_t :=
  _ ← (if decide (ptr (attribute_value this) ≠ NULL)
       then allocator_free (ptr (attribute_value this))
       else mret tt);
  _ ← allocator_free self;
  mret SUCCESS.

(** [get_encoding_rules]: the status, [*rules] and [*rule_count]. *)
Definition get_encoding_rules (this : private_transform_attribute_t)
  : status_t * list encoding_rule_t * Z :=
  (SUCCESS, transform_attribute_encodings,
   Z.of_nat (length transform_attribute_encodings)).

Definition get_type (this : private_transform_attribute_t)
  : payload_type_t :=
  TRANSFORM_ATTRIBUTE.

Definition get_next_type (this : private_transform_attribute_t)
  : payload_type_t :=
  NO_PAYLOAD.

Definition get_length (this : private_transform_attribute_t) : Z :=
  if bool_decide (attribute_format this = true) then 4
  else attribute_length_or_value this + 4.

(** [set_value]: the status and the object after the call. *)
Definition set_value (this : private_transform_attribute_t)
    (value : list byte)
  : alloc (status_t * private_transform_attribute_t) :=
  this ← (if decide (ptr (attribute_value this) ≠ NULL)
          then
            _ ← allocator_free (ptr (attribute_value this));
            mret (with_attribute_value this {| ptr := NULL; len := 0 |})
          else mret this);
  if decide (value_len value > 2)
  then
    p ← allocator_clone_bytes value;
    let this :=
      with_attribute_value this
        {| ptr := p; len := len (attribute_value this) |} in
    if decide (p = NULL)
    then mret (OUT_OF_RES, this)
    else
      let this :=
        with_attribute_value this {| ptr := p; len := value_len value |} in
      let this :=
        with_attribute_length_or_value this (to_u16 (value_len value)) in
      let this := with_attribute_format this false in
      mret (SUCCESS, this)
  else
    mret (SUCCESS,
          with_attribute_length_or_value this
            (memcpy_u16 (attribute_length_or_value this) value
               (length value))).

(** [get_value]: a view, not a copy. *)
Definition get_value (this : private_transform_attribute_t) : chunk_t :=
  if bool_decide (attribute_format this = false)
  then {| ptr := ptr (attribute_value this);
          len := len (attribute_value this) |}
  else {| ptr := Inline_length_or_value; len := 2 |}.

Definition set_attribute_type (this : private_transform_attribute_t)
    (type : Z) : status_t * private_transform_attribute_t :=
  (SUCCESS, with_attribute_type this (Z.land type 0x7FFF)).

Definition get_attribute_type (this : private_transform_attribute_t) : Z :=
  attribute_type this.

(** [transform_attribute_create]: NULL ([None]) when no storage is to be
    had, else the address of the new object and its members. *)
Definition transform_attribute_create
  : alloc (option (ptr_t * private_transform_attribute_t)) :=
  this ← allocator_alloc_thing;
  if decide (this = NULL)
  then mret None
  else
    mret (Some (this,
                {| attribute_format := true;
                   attribute_type := 0;
                   attribute_length_or_value := 0;
                   attribute_value := {| ptr := NULL; len := 0 |} |})).

(** ** Reading a chunk *)

(** The bytes a chunk returned by [get_value] designates, read from the
    allocator's blocks or from the object's own member; [None] for a pointer
    that cannot be read. *)
Definition chunk_bytes (this : private_transform_attribute_t)
    (m : allocator_t) (c : chunk_t) : option (list byte) :=
  match ptr c with
  | NULL => if decide (len c = 0) then Some [] else None
  | Block a =>
      match blocks m !! a with
      | Some (Bytes bs) =>
          if decide (len c <= value_len bs)
          then Some (take (Z.to_nat (len c)) bs) else None
      | _ => None
      end
  | Inline_length_or_value =>
      if decide (len c <= 2)
      then Some (take (Z.to_nat (len c))
                   (u16_bytes (attribute_length_or_value this)))
      else None
  end.

End Host.

(** ** Worlds: an object, its address and the allocator *)

(** An allocator that has handed out nothing yet. *)
Definition empty_allocator (l : list bool) : allocator_t :=
  {| blocks := ∅; outcomes := l; free_log := []; bad_frees := [] |}.

(** The first statement of [set_value] on its own ("free existing
    value"); used to state what [set_value] computes. *)
Definition free_existing_value (this : private_transform_attribute_t)
  : alloc private_transform_attribute_t :=
  if decide (ptr (attribute_value this) ≠ NULL)
  then
    _ ← allocator_free (ptr (attribute_value this));
    mret (with_attribute_value this {| ptr := NULL; len := 0 |})
  else mret this.

(** The next allocation request returns NULL. *)
Definition next_allocation_fails (m : allocator_t) : Prop :=
  head (outcomes m) = Some false.

Global Instance next_allocation_fails_dec m :
  Decision (next_allocation_fails m).
Proof. unfold next_allocation_fails. apply _. Defined.

(** The states an object goes through: made by
    [transform_attribute_create], then changed by [set_value] and
    [set_attribute_type] only.  The allocator it is created from is
    arbitrary, and so is the list of outcomes of its coming requests. *)
Inductive reachable (host : byte_order)
  : ptr_t -> private_transform_attribute_t -> allocator_t -> Prop :=
| reach_create m self this m' :
    transform_attribute_create m = (Some (self, this), m') ->
    reachable host self this m'
| reach_set_value self this m value st this' m' :
    reachable host self this m ->
    set_value host this value m = ((st, this'), m') ->
    reachable host self this' m'
| reach_set_attribute_type self this m type st this' :
    reachable host self this m ->
    0 <= type < 65536 ->
    set_attribute_type this type = (st, this') ->
    reachable host self this' m.

(** What holds of the out-of-line buffer in every reachable state: either
    none is held, or the object is in TLV form and holds a live block with
    the bytes last set, whose number is in the length-or-value member. *)
Definition buffer_consistent (this : private_transform_attribute_t)
    (m : allocator_t) : Prop :=
  match ptr (attribute_value this) with
  | NULL => len (attribute_value this) = 0
  | Block a =>
      exists bs,
        blocks m !! a = Some (Bytes bs) /\
        len (attribute_value this) = value_len bs /\
        value_len bs > 2 /\
        attribute_format this = false /\
        attribute_length_or_value this = to_u16 (value_len bs)
  | Inline_length_or_value => False
  end.

Definition consistent (self : ptr_t) (this : private_transform_attribute_t)
    (m : allocator_t) : Prop :=
  (exists s, self = Block s /\ blocks m !! s = Some Thing) /\
  buffer_consistent this m /\
  0 <= attribute_type this <= 32767 /\
  0 <= attribute_length_or_value this < 65536.

(** ** Concrete objects *)

(** The members of an object as [transform_attribute_create] sets them. *)
Definition new_attribute : private_transform_attribute_t :=
  {| attribute_format := true;
     attribute_type := 0;
     attribute_length_or_value := 0;
     attribute_value := {| ptr := NULL; len := 0 |} |}.

(** The allocator once it has handed out the object's block, at address 1,
    and nothing else; [l] are the outcomes of the requests to come. *)
Definition one_object (l : list bool) : allocator_t :=
  {| blocks := {[1%positive := Thing]};
     outcomes := l; free_log := []; bad_frees := [] |}.

(** An object in TV form whose inline bytes are AA BB. *)
Definition inline_AABB (host : byte_order) : private_transform_attribute_t :=
  {| attribute_format := true;
     attribute_type := 0;
     attribute_length_or_value := u16_of_bytes host [xaa; xbb];
     attribute_value := {| ptr := NULL; len := 0 |} |}.

(** An object in TLV form holding the three bytes 01 02 03 in block 2, and
    the allocator that goes with it. *)
Definition long_010203 : private_transform_attribute_t :=
  {| attribute_format := false;
     attribute_type := 0;
     attribute_length_or_value := 3;
     attribute_value := {| ptr := Block 2; len := 3 |} |}.

Definition two_blocks (l : list bool) : allocator_t :=
  {| blocks := {[1%positive := Thing; 2%positive := Bytes [x01; x02; x03]]};
     outcomes := l; free_log := []; bad_frees := [] |}.

(** The object [long_010203] after [set_value] of the two bytes AA BB: the
    format flag still says TLV, no buffer is held. *)
Definition stale_TLV (host : byte_order) : private_transform_attribute_t :=
  {| attribute_format := false;
     attribute_type := 0;
     attribute_length_or_value := u16_of_bytes host [xaa; xbb];
     attribute_value := {| ptr := NULL; len := 0 |} |}.

Definition buffer_released (l : list bool) : allocator_t :=
  {| blocks := {[1%positive := Thing]};
     outcomes := l; free_log := [Block 2]; bad_frees := [] |}.

(** ** The life of an object *)

(** The two calls of the public interface that write to the object. *)
Inductive call_t : Set :=
| call_set_value (value : list byte)
| call_set_attribute_type (type : Z).

(** One call on the object; the status returned is dropped. *)
Definition do_call (host : byte_order) (c : call_t)
    (this : private_transform_attribute_t)
  : alloc private_transform_attribute_t :=
  match c with
  | call_set_value value =>
      r ← set_value host this value;
      mret r.2
  | call_set_attribute_type type =>
      mret (set_attribute_type this type).2
  end.

(** A sequence of calls, in order. *)
Fixpoint do_calls (host : byte_order) (cs : list call_t)
    (this : private_transform_attribute_t)
  : alloc private_transform_attribute_t :=
  match cs with
  | [] => mret this
  | c :: cs =>
      this ← do_call host c this;
      do_calls host cs this
  end.

(** The blocks of the allocator in terms of those, [b0], that were live
    before the object at [s] was created: the object's own block is added,
    and the buffer [attribute_value] points to, if there is one. *)
Definition owns (b0 : gmap positive block_t) (s : positive)
    (this : private_transform_attribute_t) (m : allocator_t) : Prop :=
  b0 !! s = None /\
  match ptr (attribute_value this) with
  | NULL => blocks m = <[s := Thing]> b0
  | Block a =>
      exists bs,
        a ≠ s /\ b0 !! a = None /\
        blocks m = <[a := Bytes bs]> (<[s := Thing]> b0)
  | Inline_length_or_value => False
  end.

(** ** Bytes and 16-bit words *)

Lemma byte_to_Z_range (b : byte) : 0 <= byte_to_Z b < 256.
Proof.
  unfold byte_to_Z. pose proof (Byte.to_N_bounded b). lia.
Qed.

Lemma byte_of_to_Z (b : byte) : byte_of_Z (byte_to_Z b) = b.
Proof.
  unfold byte_of_Z. pose proof (byte_to_Z_range b) as Hb.
  rewrite Z.mod_small by lia.
  unfold byte_to_Z. rewrite N2Z.id, Byte.of_to_N. reflexivity.
Qed.

Lemma byte_of_Z_mod (z : Z) : byte_of_Z (z mod 256) = byte_of_Z z.
Proof.
  unfold byte_of_Z. rewrite Z.mod_mod by lia. reflexivity.
Qed.

Lemma byte_of_Z_low (lo hi : byte) :
  byte_of_Z (byte_to_Z lo + 256 * byte_to_Z hi) = lo.
Proof.
  rewrite <- byte_of_Z_mod.
  replace (byte_to_Z lo + 256 * byte_to_Z hi)
    with (byte_to_Z lo + byte_to_Z hi * 256) by lia.
  rewrite Z.mod_add by lia.
  rewrite byte_of_Z_mod. apply byte_of_to_Z.
Qed.

Lemma byte_of_Z_high (lo hi : byte) :
  byte_of_Z ((byte_to_Z lo + 256 * byte_to_Z hi) / 256) = hi.
Proof.
  pose proof (byte_to_Z_range lo) as Hlo.
  replace ((byte_to_Z lo + 256 * byte_to_Z hi) / 256) with (byte_to_Z hi).
  - apply byte_of_to_Z.
  - replace (byte_to_Z lo + 256 * byte_to_Z hi)
      with (byte_to_Z lo + byte_to_Z hi * 256) by lia.
    rewrite Z.div_add by lia. rewrite Z.div_small by lia. lia.
Qed.

Lemma u16_bytes_length host (v : Z) : length (u16_bytes host v) = 2%nat.
Proof. destruct host; reflexivity. Qed.

(** Storing two bytes in the member and reading its storage back gives the
    same two bytes, in either byte order. *)
Lemma u16_bytes_of_bytes host (b0 b1 : byte) :
  u16_bytes host (u16_of_bytes host [b0; b1]) = [b0; b1].
Proof.
  destruct host; unfold u16_bytes, u16_of_bytes.
  - rewrite byte_of_Z_low, byte_of_Z_high. reflexivity.
  - replace (256 * byte_to_Z b0 + byte_to_Z b1)
      with (byte_to_Z b1 + 256 * byte_to_Z b0) by lia.
    rewrite byte_of_Z_low, byte_of_Z_high. reflexivity.
Qed.

Lemma u16_of_bytes_range host (bs : list byte) :
  0 <= u16_of_bytes host bs < 65536.
Proof.
  unfold u16_of_bytes.
  destruct bs as [|b0 [|b1 [|b2 bs]]]; try lia.
  pose proof (byte_to_Z_range b0). pose proof (byte_to_Z_range b1).
  destruct host; lia.
Qed.

(** Masking with 0x7FFF leaves a 15-bit number. *)
Lemma land_0x7FFF_range (z : Z) : 0 <= Z.land z 0x7FFF <= 32767.
Proof.
  change 0x7FFF with (Z.ones 15). rewrite Z.land_ones by lia.
  change (Z.ones 15) with 32767. change (2 ^ 15) with 32768.
  pose proof (Z.mod_pos_bound z 32768). lia.
Qed.

Lemma to_u16_range (z : Z) : 0 <= to_u16 z < 65536.
Proof. unfold to_u16. apply Z.mod_pos_bound. lia. Qed.

(** The bytes of the member after [memcpy]: those copied, then the old
    ones. *)
Lemma memcpy_u16_bytes host (field : Z) (value : list byte) :
  value_len value <= 2 ->
  u16_bytes host (memcpy_u16 host field value (length value))
  = value ++ drop (length value) (u16_bytes host field).
Proof.
  intros Hv. unfold memcpy_u16. rewrite firstn_all.
  pose proof (u16_bytes_length host field) as Hl.
  destruct (u16_bytes host field) as [|o0 [|o1 [|o2 old]]]; try discriminate.
  unfold value_len in Hv.
  destruct value as [|a [|b [|c value]]]; simpl in *;
    try lia; apply u16_bytes_of_bytes.
Qed.

(** ** What [set_value] computes *)

Lemma set_value_short host this value m :
  value_len value <= 2 ->
  set_value host this value m
  = ((SUCCESS,
      with_attribute_length_or_value (free_existing_value this m).1
        (memcpy_u16 host (attribute_length_or_value this) value
           (length value))),
     (free_existing_value this m).2).
Proof.
  intros Hv. unfold set_value, free_existing_value, mbind, alloc_bind, mret,
    alloc_ret.
  destruct (decide (ptr (attribute_value this) ≠ NULL));
    simpl; (destruct (decide (value_len value > 2)); [lia|]); reflexivity.
Qed.

Lemma set_value_fails host this value m :
  value_len value > 2 -> next_allocation_fails m ->
  set_value host this value m
  = ((OUT_OF_RES,
      with_attribute_value this
        {| ptr := NULL;
           len := if decide (ptr (attribute_value this) ≠ NULL) then 0
                  else len (attribute_value this) |}),
     {| blocks := blocks (free_existing_value this m).2;
        outcomes := tail (outcomes m);
        free_log := free_log (free_existing_value this m).2;
        bad_frees := bad_frees (free_existing_value this m).2 |}).
Proof.
  intros Hv Hf. unfold next_allocation_fails in Hf.
  unfold set_value, free_existing_value, mbind, alloc_bind, mret, alloc_ret,
    allocator_clone_bytes, allocate.
  destruct (outcomes m) as [|[] rest] eqn:Ho; try discriminate.
  destruct (decide (ptr (attribute_value this) ≠ NULL));
    simpl; (destruct (decide (value_len value > 2)); [|lia]);
    simpl; rewrite Ho; reflexivity.
Qed.

Lemma set_value_clones host this value m :
  value_len value > 2 -> ~ next_allocation_fails m ->
  let m0 := (free_existing_value this m).2 in
  let a := fresh (dom (blocks m0)) in
  set_value host this value m
  = ((SUCCESS,
      {| attribute_format := false;
         attribute_type := attribute_type this;
         attribute_length_or_value := to_u16 (value_len value);
         attribute_value := {| ptr := Block a; len := value_len value |} |}),
     {| blocks := <[a := Bytes value]> (blocks m0);
        outcomes := tail (outcomes m);
        free_log := free_log m0;
        bad_frees := bad_frees m0 |}).
Proof.
  intros Hv Hf. unfold next_allocation_fails in Hf.
  unfold set_value, free_existing_value, mbind, alloc_bind, mret, alloc_ret,
    allocator_clone_bytes, allocate.
  destruct (decide (ptr (attribute_value this) ≠ NULL));
    simpl; (destruct (decide (value_len value > 2)); [|lia]);
    simpl; destruct (outcomes m) as [|[] rest] eqn:Ho;
    simpl in *; try congruence; reflexivity.
Qed.

(** ** The invariant of reachable states *)

Lemma free_existing_value_none this m :
  ptr (attribute_value this) = NULL ->
  free_existing_value this m = (this, m).
Proof.
  intros Hp. unfold free_existing_value.
  destruct (decide (ptr (attribute_value this) ≠ NULL)); [congruence|].
  reflexivity.
Qed.

Lemma free_existing_value_held this m :
  ptr (attribute_value this) ≠ NULL ->
  free_existing_value this m
  = (with_attribute_value this {| ptr := NULL; len := 0 |},
     (allocator_free (ptr (attribute_value this)) m).2).
Proof.
  intros Hp. unfold free_existing_value.
  destruct (decide (ptr (attribute_value this) ≠ NULL)); [|contradiction].
  reflexivity.
Qed.

(** After the first statement of [set_value] no buffer is held, the object's
    own block is still live, and nothing was freed that was not live. *)
Lemma free_existing_value_consistent self this m :
  consistent self this m ->
  let r := free_existing_value this m in
  consistent self r.1 r.2 /\
  ptr (attribute_value r.1) = NULL /\
  len (attribute_value r.1) = 0 /\
  attribute_format r.1 = attribute_format this /\
  attribute_type r.1 = attribute_type this /\
  attribute_length_or_value r.1 = attribute_length_or_value this /\
  bad_frees r.2 = bad_frees m /\
  outcomes r.2 = outcomes m.
Proof.
  intros (Hself & Hbuf & Hty & Hlov). simpl.
  destruct (decide (ptr (attribute_value this) = NULL)) as [Hp|Hp].
  - rewrite (free_existing_value_none _ _ Hp). simpl.
    unfold buffer_consistent in Hbuf. rewrite Hp in Hbuf.
    repeat split; auto; try lia.
    unfold buffer_consistent. rewrite Hp. exact Hbuf.
  - rewrite (free_existing_value_held _ _ Hp). simpl.
    unfold buffer_consistent in Hbuf.
    destruct (ptr (attribute_value this)) as [|a|] eqn:Ea;
      [congruence| |contradiction].
    destruct Hbuf as (bs & Hbs & _).
    destruct Hself as (s & -> & Hs).
    assert (a ≠ s) by (intros ->; congruence).
    repeat split; simpl; auto; try lia.
    + exists s. split; [reflexivity|].
      rewrite lookup_delete_ne by done. exact Hs.
    + rewrite bool_decide_eq_true_2; [reflexivity|]. rewrite Hbs. eauto.
Qed.

Lemma create_consistent m self this m' :
  transform_attribute_create m = (Some (self, this), m') ->
  consistent self this m'.
Proof.
  unfold transform_attribute_create, mbind, alloc_bind, mret, alloc_ret,
    allocator_alloc_thing, allocate.
  destruct (outcomes m) as [|[] rest]; simpl; intros H; inversion H; subst;
    (split; [eexists; split; [reflexivity|]; simpl; apply lookup_insert_eq|]);
    (repeat split; simpl; lia).
Qed.

Lemma set_value_consistent host self this value m st this' m' :
  consistent self this m ->
  set_value host this value m = ((st, this'), m') ->
  consistent self this' m' /\ bad_frees m' = bad_frees m.
Proof.
  intros Hc Hset.
  destruct (free_existing_value_consistent _ _ _ Hc)
    as ((Hself & _ & Hty & Hlov) & Hp & Hl & Hf & Ht & Hv & Hbad & Hout).
  destruct (decide (value_len value > 2)) as [Hlen|Hlen].
  - destruct (decide (next_allocation_fails m)) as [Hfail|Hok].
    + rewrite (set_value_fails _ _ _ _ Hlen Hfail) in Hset.
      inversion Hset; subst; clear Hset. simpl. split; [|exact Hbad].
      split; [exact Hself|]. split.
      * unfold buffer_consistent. simpl.
        destruct (decide (ptr (attribute_value this) ≠ NULL)) as [|Hn];
          [reflexivity|].
        assert (ptr (attribute_value this) = NULL) as Hnull
          by (destruct (decide (ptr (attribute_value this) = NULL));
              [assumption|contradiction]).
        rewrite free_existing_value_none in Hl by exact Hnull. exact Hl.
      * simpl. rewrite <- Ht, <- Hv. split; assumption.
    + pose proof (set_value_clones host this value m Hlen Hok) as E.
      simpl in E. rewrite E in Hset. inversion Hset; subst; clear Hset E.
      simpl. split; [|exact Hbad].
      set (m0 := (free_existing_value this m).2) in *.
      pose proof (is_fresh (dom (blocks m0))) as Hfresh.
      rewrite not_elem_of_dom in Hfresh.
      split; [|split].
      * destruct Hself as (s & -> & Hs). exists s. split; [reflexivity|].
        simpl. rewrite lookup_insert_ne; [exact Hs|]. intros E.
        rewrite E in Hfresh. congruence.
      * unfold buffer_consistent. simpl. exists value.
        rewrite lookup_insert_eq. repeat split; auto.
      * simpl. rewrite <- Ht. split; [assumption|apply to_u16_range].
  - rewrite (set_value_short host this value m) in Hset by lia.
    inversion Hset; subst; clear Hset. simpl. split; [|exact Hbad].
    split; [exact Hself|]. split.
    + unfold buffer_consistent. simpl. rewrite Hp. exact Hl.
    + simpl. split; [exact Hty|apply u16_of_bytes_range].
Qed.

Lemma set_attribute_type_consistent self this m type st this' :
  consistent self this m ->
  set_attribute_type this type = (st, this') ->
  consistent self this' m.
Proof.
  intros (Hself & Hbuf & Hty & Hlov) H. inversion H; subst; clear H.
  split; [exact Hself|]. split; [exact Hbuf|]. split; [|exact Hlov].
  simpl. apply land_0x7FFF_range.
Qed.

Lemma reachable_consistent host self this m :
  reachable host self this m -> consistent self this m.
Proof.
  induction 1 as [m self this m' Hc
                 |self this m value st this' m' _ IH Hs
                 |self this m type st this' _ IH _ Hs].
  - eapply create_consistent; eassumption.
  - eapply set_value_consistent; eassumption.
  - eapply set_attribute_type_consistent; eassumption.
Qed.

(** In TV form no out-of-line buffer is held (the converse fails, see
    below). *)
Lemma reachable_TV_no_buffer host self this m :
  reachable host self this m ->
  attribute_format this = true ->
  attribute_value this = {| ptr := NULL; len := 0 |}.
Proof.
  intros Hr Hf. apply reachable_consistent in Hr.
  destruct Hr as (_ & Hbuf & _). unfold buffer_consistent in Hbuf.
  destruct (attribute_value this) as [p l]. simpl in *.
  destruct p as [|a|].
  - congruence.
  - destruct Hbuf as (bs & _ & _ & _ & Hfalse & _). congruence.
  - contradiction.
Qed.

(** ** Concrete runs *)

Lemma create_new_attribute (l : list bool) :
  transform_attribute_create (empty_allocator (true :: l))
  = (Some (Block 1, new_attribute), one_object l).
Proof. reflexivity. Qed.

Lemma reachable_new_attribute host (l : list bool) :
  reachable host (Block 1) new_attribute (one_object l).
Proof. eapply reach_create. apply create_new_attribute. Qed.

Lemma set_value_AABB host (l : list bool) :
  set_value host new_attribute [xaa; xbb] (one_object l)
  = ((SUCCESS, inline_AABB host), one_object l).
Proof. destruct host; reflexivity. Qed.

Lemma reachable_inline_AABB host (l : list bool) :
  reachable host (Block 1) (inline_AABB host) (one_object l).
Proof.
  eapply reach_set_value;
    [apply reachable_new_attribute|apply set_value_AABB].
Qed.

Lemma set_value_010203 host (l : list bool) :
  set_value host new_attribute [x01; x02; x03] (one_object (true :: l))
  = ((SUCCESS, long_010203), two_blocks l).
Proof. vm_compute. reflexivity. Qed.

Lemma reachable_long_010203 host (l : list bool) :
  reachable host (Block 1) long_010203 (two_blocks l).
Proof.
  eapply reach_set_value;
    [apply reachable_new_attribute|apply set_value_010203].
Qed.

Lemma set_value_AABB_after_010203 host (l : list bool) :
  set_value host long_010203 [xaa; xbb] (two_blocks l)
  = ((SUCCESS, stale_TLV host), buffer_released l).
Proof. destruct host; vm_compute; reflexivity. Qed.

Lemma reachable_stale_TLV host (l : list bool) :
  reachable host (Block 1) (stale_TLV host) (buffer_released l).
Proof.
  eapply reach_set_value;
    [apply reachable_long_010203|apply set_value_AABB_after_010203].
Qed.

(** ** [set_value]: the format flag *)

(** What a call with at most two bytes leaves behind: the flag and the type
    are not written, no buffer is held, and the member's bytes are the ones
    copied followed by the old ones. *)
Lemma set_value_short_fields host this value m :
  value_len value <= 2 ->
  exists this' m',
    set_value host this value m = ((SUCCESS, this'), m') /\
    attribute_format this' = attribute_format this /\
    attribute_type this' = attribute_type this /\
    ptr (attribute_value this') = NULL /\
    u16_bytes host (attribute_length_or_value this')
    = value ++ drop (length value)
                 (u16_bytes host (attribute_length_or_value this)).
Proof.
  intros Hv. rewrite set_value_short by exact Hv.
  eexists _, _. split; [reflexivity|]. simpl.
  unfold free_existing_value.
  destruct (decide (ptr (attribute_value this) ≠ NULL)) as [Hp|Hp]; simpl;
    (repeat split; [..|apply memcpy_u16_bytes; exact Hv]); try reflexivity.
  destruct (ptr (attribute_value this)); try reflexivity;
    exfalso; apply Hp; discriminate.
Qed.

(** C1 (the code departs from the claim): an object is created, given the
    three bytes 01 02 03, which puts it in TLV form, and then given the two
    bytes AA BB.  The second call succeeds and releases the buffer, but the
    format flag is still FALSE: a value of length 2 has not put the object
    in TV form, and [get_value] answers the empty chunk instead of the two
    bytes. *)
Theorem set_value_short_after_long_stays_TLV (host : byte_order) :
  exists self this0 m0 this1 m1 this2 m2,
    transform_attribute_create (empty_allocator [])
    = (Some (self, this0), m0) /\
    set_value host this0 [x01; x02; x03] m0 = ((SUCCESS, this1), m1) /\
    attribute_format this1 = false /\
    set_value host this1 [xaa; xbb] m1 = ((SUCCESS, this2), m2) /\
    value_len [xaa; xbb] <= 2 /\
    attribute_format this2 = false /\
    get_value this2 = {| ptr := NULL; len := 0 |}.
Proof.
  exists (Block 1), new_attribute, (one_object []),
    long_010203, (two_blocks []), (stale_TLV host), (buffer_released []).
  split; [reflexivity|].
  split; [apply (set_value_010203 host [])|].
  split; [reflexivity|].
  split; [apply set_value_AABB_after_010203|].
  split; [vm_compute; discriminate|].
  split; reflexivity.
Qed.

(** C2 (the code departs from the claim): there is a reachable state in
    TLV form (attribute_format FALSE) in which no out-of-line buffer is held
    (null pointer, length 0): the one reached by [set_value] of three bytes
    followed by [set_value] of two.  Only one half of the claimed
    equivalence is an invariant, see [reachable_TV_no_buffer]. *)
Theorem reachable_TLV_without_buffer (host : byte_order) :
  exists self this m,
    reachable host self this m /\
    attribute_format this = false /\
    attribute_value this = {| ptr := NULL; len := 0 |}.
Proof.
  exists (Block 1), (stale_TLV host), (buffer_released []).
  split; [apply reachable_stale_TLV|]. split; reflexivity.
Qed.

(** ** [set_value]: failure of the allocation *)

(** C3, refuted as stated: the object in TV form with the inline bytes
    AA BB is reachable; [set_value] of three bytes on it, with the clone
    failing, does not end in a state with attribute_format TRUE,
    attribute_length_or_value 0 and no buffer: the inline value is still
    the one set before. *)
Lemma set_value_failure_does_not_zero_value :
  reachable Little_endian (Block 1) (inline_AABB Little_endian)
    (one_object [false]) /\
  value_len [x01; x02; x03] > 2 /\
  next_allocation_fails (one_object [false]) /\
  ~ (exists this' m',
       set_value Little_endian (inline_AABB Little_endian) [x01; x02; x03]
         (one_object [false])
       = ((OUT_OF_RES, this'), m') /\
       attribute_format this' = true /\
       attribute_length_or_value this' = 0 /\
       attribute_value this' = {| ptr := NULL; len := 0 |}).
Proof.
  split; [apply reachable_inline_AABB|].
  split; [vm_compute; reflexivity|].
  split; [reflexivity|].
  intros (this' & m' & Hset & _ & Hzero & _).
  vm_compute in Hset. inversion Hset; subst. vm_compute in Hzero.
  discriminate.
Qed.

(** C3, as amended: for every object in TV form, when [set_value] of more
    than two bytes fails because the clone fails, the call returns
    OUT_OF_RES and leaves the object in TV form with no out-of-line buffer
    (null pointer; the length is 0 if a buffer was held before and is not
    written otherwise; a buffer held before has been freed), and
    attribute_length_or_value and attribute_type are what they were before
    the call: the inline value is kept, not set to 0.  Nothing is said here
    of an object that was in TLV form. *)
Theorem set_value_failure_state host this value m :
  attribute_format this = true ->
  value_len value > 2 ->
  next_allocation_fails m ->
  exists this' m',
    set_value host this value m = ((OUT_OF_RES, this'), m') /\
    attribute_format this' = true /\
    ptr (attribute_value this') = NULL /\
    len (attribute_value this')
    = (if decide (ptr (attribute_value this) = NULL)
       then len (attribute_value this) else 0) /\
    free_log m'
    = (if decide (ptr (attribute_value this) = NULL) then []
       else [ptr (attribute_value this)]) ++ free_log m /\
    attribute_length_or_value this' = attribute_length_or_value this /\
    attribute_type this' = attribute_type this.
Proof.
  intros Hf Hlen Hfail.
  rewrite (set_value_fails host this value m Hlen Hfail).
  eexists _, _. split; [reflexivity|]. simpl.
  split; [exact Hf|]. split; [reflexivity|].
  destruct (decide (ptr (attribute_value this) = NULL)) as [Hp|Hp].
  - rewrite (free_existing_value_none _ _ Hp).
    destruct (decide (ptr (attribute_value this) ≠ NULL)); [contradiction|].
    repeat split; auto.
  - rewrite (free_existing_value_held _ _ Hp).
    destruct (decide (ptr (attribute_value this) ≠ NULL)); [|contradiction].
    repeat split; auto.
Qed.

Lemma set_value_failure_state_witness :
  attribute_format (inline_AABB Little_endian) = true /\
  value_len [x01; x02; x03] > 2 /\
  next_allocation_fails (one_object [false]) /\
  exists this' m',
    set_value Little_endian (inline_AABB Little_endian) [x01; x02; x03]
      (one_object [false])
    = ((OUT_OF_RES, this'), m') /\
    attribute_format this' = true /\
    ptr (attribute_value this') = NULL /\
    len (attribute_value this') = 0 /\
    free_log m' = [] /\
    attribute_length_or_value this' = 0xBBAA /\
    attribute_type this' = 0.
Proof.
  split; [reflexivity|].
  split; [vm_compute; reflexivity|]. split; [reflexivity|].
  apply (set_value_failure_state Little_endian (inline_AABB Little_endian)
           [x01; x02; x03] (one_object [false])).
  - reflexivity.
  - vm_compute. reflexivity.
  - reflexivity.
Defined.

(** From TLV form the same failure leaves the object half written: the
    buffer is freed and the pointer NULL, but the format flag still says TLV
    and attribute_length_or_value still holds the length of the buffer that
    is gone, so that [get_length] answers 7 for an object without a value.
    This contradicts the comments on the members of the struct. *)
Lemma set_value_failure_from_TLV_half_written (host : byte_order) :
  reachable host (Block 1) long_010203 (two_blocks [false]) /\
  exists this' m',
    set_value host long_010203 [x0a; x0b; x0c] (two_blocks [false])
    = ((OUT_OF_RES, this'), m') /\
    attribute_format this' = false /\
    attribute_length_or_value this' = 3 /\
    attribute_value this' = {| ptr := NULL; len := 0 |} /\
    get_value this' = {| ptr := NULL; len := 0 |} /\
    get_length this' = 7 /\
    free_log m' = [Block 2].
Proof.
  split; [apply reachable_long_010203|].
  eexists _, _. split; [vm_compute; reflexivity|]. repeat split.
Qed.

(** ** The attribute type *)

(** C4: for every 16-bit [t] and every state, [set_attribute_type] succeeds,
    the stored type lies in [0, 32767], [get_attribute_type] then returns
    [t & 0x7FFF], and no other member is written. *)
Theorem set_attribute_type_masks this (t : Z) :
  0 <= t < 65536 ->
  exists this',
    set_attribute_type this t = (SUCCESS, this') /\
    0 <= attribute_type this' <= 32767 /\
    get_attribute_type this' = Z.land t 0x7FFF /\
    attribute_format this' = attribute_format this /\
    attribute_length_or_value this' = attribute_length_or_value this /\
    attribute_value this' = attribute_value this.
Proof.
  intros _. eexists. split; [reflexivity|]. simpl.
  split; [apply land_0x7FFF_range|]. repeat split.
Qed.

Lemma set_attribute_type_masks_witness :
  0 <= 0x8005 < 65536 /\
  exists this',
    set_attribute_type (inline_AABB Big_endian) 0x8005 = (SUCCESS, this') /\
    0 <= attribute_type this' <= 32767 /\
    get_attribute_type this' = 0x0005 /\
    attribute_format this' = true /\
    attribute_length_or_value this' = 0xAABB /\
    attribute_value this' = {| ptr := NULL; len := 0 |}.
Proof.
  split; [lia|].
  apply (set_attribute_type_masks (inline_AABB Big_endian) 0x8005). lia.
Defined.

(** ** The length on the wire *)

Lemma get_length_TV this :
  attribute_format this = true -> get_length this = 4.
Proof. unfold get_length. intros ->. reflexivity. Qed.

Lemma get_length_TLV this :
  attribute_format this = false ->
  get_length this = 4 + attribute_length_or_value this.
Proof. unfold get_length. intros ->. simpl. lia. Qed.

(** C5: in every reachable state [get_length] returns 4 in TV form and
    4 + attribute_length_or_value in TLV form; the sum does not wrap, the
    member being a 16-bit number. *)
Theorem get_length_consistent host self this m :
  reachable host self this m ->
  (attribute_format this = true -> get_length this = 4) /\
  (attribute_format this = false ->
   get_length this = 4 + attribute_length_or_value this /\
   4 <= get_length this <= 65539).
Proof.
  intros Hr. apply reachable_consistent in Hr.
  destruct Hr as (_ & _ & _ & Hlov).
  split; [apply get_length_TV|].
  intros Hf. rewrite (get_length_TLV _ Hf). lia.
Qed.

Lemma get_length_consistent_witness :
  reachable Little_endian (Block 1) long_010203 (two_blocks []) /\
  (false = true -> get_length long_010203 = 4) /\
  (false = false ->
   get_length long_010203 = 4 + 3 /\ 4 <= get_length long_010203 <= 65539).
Proof.
  split; [apply reachable_long_010203|].
  apply (get_length_consistent Little_endian (Block 1) long_010203
           (two_blocks [])).
  apply reachable_long_010203.
Defined.

(** ** Two bytes, inline *)

(** In TV form [get_value] is a view of the two bytes of the inline
    member. *)
Lemma get_value_inline host this m :
  attribute_format this = true ->
  get_value this = {| ptr := Inline_length_or_value; len := 2 |} /\
  chunk_bytes host this m (get_value this)
  = Some (u16_bytes host (attribute_length_or_value this)).
Proof.
  intros Hf. unfold get_value. rewrite Hf.
  split; [reflexivity|].
  unfold chunk_bytes.
  change (bool_decide (true = false)) with false. cbv iota. cbn [ptr len].
  destruct (decide (2 <= 2)); [|lia].
  rewrite take_ge; [reflexivity|]. rewrite u16_bytes_length.
  change (Z.to_nat 2) with 2%nat. lia.
Qed.

(** C6: on an object just created, [set_value] of the two bytes AA BB
    succeeds without touching the allocator and leaves the object in TV
    form; [get_value] then returns a view of length 2 on the inline member
    whose bytes are AA BB, in either byte order, and [get_length] is 4. *)
Theorem set_value_two_bytes_on_new host m self this m1 :
  transform_attribute_create m = (Some (self, this), m1) ->
  exists this',
    set_value host this [xaa; xbb] m1 = ((SUCCESS, this'), m1) /\
    attribute_format this' = true /\
    get_value this' = {| ptr := Inline_length_or_value; len := 2 |} /\
    chunk_bytes host this' m1 (get_value this') = Some [xaa; xbb] /\
    get_length this' = 4.
Proof.
  unfold transform_attribute_create, mbind, alloc_bind, mret, alloc_ret.
  destruct (allocator_alloc_thing m) as [p m0].
  destruct (decide (p = NULL)); intros H; inversion H; subst; clear H.
  exists (inline_AABB host). split; [destruct host; reflexivity|].
  split; [reflexivity|].
  destruct (get_value_inline host (inline_AABB host) m1 eq_refl)
    as [Hview Hbytes].
  split; [exact Hview|]. split; [|reflexivity].
  rewrite Hbytes. unfold inline_AABB. cbn [attribute_length_or_value].
  apply f_equal, u16_bytes_of_bytes.
Qed.

Lemma set_value_two_bytes_on_new_witness :
  transform_attribute_create (empty_allocator [])
  = (Some (Block 1, new_attribute), one_object []) /\
  exists this',
    set_value Big_endian new_attribute [xaa; xbb] (one_object [])
    = ((SUCCESS, this'), one_object []) /\
    attribute_format this' = true /\
    get_value this' = {| ptr := Inline_length_or_value; len := 2 |} /\
    chunk_bytes Big_endian this' (one_object []) (get_value this')
    = Some [xaa; xbb] /\
    get_length this' = 4.
Proof.
  split; [reflexivity|].
  apply (set_value_two_bytes_on_new Big_endian (empty_allocator [])
           (Block 1) new_attribute (one_object [])).
  reflexivity.
Defined.

(** ** The destructor *)

Lemma destroy_computes self this m :
  destroy self this m
  = (SUCCESS,
     (allocator_free self
        (if decide (ptr (attribute_value this) = NULL) then m
         else (allocator_free (ptr (attribute_value this)) m).2)).2).
Proof.
  unfold destroy, mbind, alloc_bind, mret, alloc_ret.
  destruct (decide (ptr (attribute_value this) = NULL)) as [Hp|Hp];
    destruct (decide (ptr (attribute_value this) ≠ NULL)) as [Hq|Hq];
    try contradiction; reflexivity.
Qed.

(** [destroy] of a reachable object frees blocks that are live, the buffer
    first if one is held, then the object. *)
Lemma destroy_reachable host self this m :
  reachable host self this m ->
  exists m',
    destroy self this m = (SUCCESS, m') /\
    free_log m'
    = self :: (if decide (ptr (attribute_value this) = NULL) then []
               else [ptr (attribute_value this)]) ++ free_log m /\
    bad_frees m' = bad_frees m.
Proof.
  intros Hr. apply reachable_consistent in Hr.
  destruct Hr as ((s & -> & Hs) & Hbuf & _).
  rewrite destroy_computes. eexists. split; [reflexivity|].
  unfold buffer_consistent in Hbuf.
  destruct (decide (ptr (attribute_value this) = NULL)) as [Hp|Hp].
  - split; [reflexivity|]. simpl.
    rewrite bool_decide_eq_true_2; [reflexivity|]. rewrite Hs. eauto.
  - destruct (ptr (attribute_value this)) as [|a|];
      [contradiction| |contradiction].
    destruct Hbuf as (bs & Hbs & _).
    assert (a ≠ s) by (intros ->; congruence).
    split; [reflexivity|]. simpl.
    rewrite lookup_delete_ne by done.
    rewrite !bool_decide_eq_true_2; [reflexivity|..].
    + rewrite Hbs. eauto.
    + rewrite Hs. eauto.
Qed.

(** C7: [destroy] of a reachable object succeeds and calls the allocator's
    free on the out-of-line buffer exactly when the pointer is not NULL,
    then on the object; every block it frees is live at that moment, so
    nothing is freed twice.  In particular, when a [set_value] call has left
    the object without a buffer (it released the one held, if any),
    [destroy] after it frees the object only. *)
Theorem destroy_frees_held_buffer_only host self this m :
  reachable host self this m ->
  (exists m',
     destroy self this m = (SUCCESS, m') /\
     free_log m'
     = self :: (if decide (ptr (attribute_value this) = NULL) then []
                else [ptr (attribute_value this)]) ++ free_log m /\
     bad_frees m' = bad_frees m) /\
  (forall value st this1 m1,
     set_value host this value m = ((st, this1), m1) ->
     ptr (attribute_value this1) = NULL ->
     exists m2,
       destroy self this1 m1 = (SUCCESS, m2) /\
       free_log m2 = self :: free_log m1 /\
       bad_frees m2 = bad_frees m).
Proof.
  intros Hr. split; [eapply destroy_reachable; exact Hr|].
  intros value st this1 m1 Hset Hnull.
  assert (reachable host self this1 m1) as Hr1
    by (eapply reach_set_value; eassumption).
  destruct (destroy_reachable _ _ _ _ Hr1) as (m2 & Hd & Hlog & Hbad).
  exists m2. split; [exact Hd|].
  destruct (decide (ptr (attribute_value this1) = NULL)); [|contradiction].
  split; [exact Hlog|].
  rewrite Hbad.
  eapply set_value_consistent;
    [eapply reachable_consistent; exact Hr|exact Hset].
Qed.

Lemma destroy_frees_held_buffer_only_witness :
  reachable Little_endian (Block 1) long_010203 (two_blocks []) /\
  (exists m',
     destroy (Block 1) long_010203 (two_blocks []) = (SUCCESS, m') /\
     free_log m' = [Block 1; Block 2] /\
     bad_frees m' = []) /\
  (forall value st this1 m1,
     set_value Little_endian long_010203 value (two_blocks [])
     = ((st, this1), m1) ->
     ptr (attribute_value this1) = NULL ->
     exists m2,
       destroy (Block 1) this1 m1 = (SUCCESS, m2) /\
       free_log m2 = Block 1 :: free_log m1 /\
       bad_frees m2 = []).
Proof.
  split; [apply reachable_long_010203|].
  apply (destroy_frees_held_buffer_only Little_endian (Block 1) long_010203
           (two_blocks [])).
  apply reachable_long_010203.
Defined.

(** ** The payload interface *)

(** C8: in every state [get_encoding_rules] succeeds and returns the one
    table [transform_attribute_encodings] with a count of 4; its rules are,
    in this order, the format flag, the attribute type, the length-or-value
    word and the value, each at the member of that name. *)
Theorem get_encoding_rules_wire_order this :
  get_encoding_rules this = (SUCCESS, transform_attribute_encodings, 4) /\
  map type transform_attribute_encodings
  = [ATTRIBUTE_FORMAT; ATTRIBUTE_TYPE; ATTRIBUTE_LENGTH_OR_VALUE;
     ATTRIBUTE_VALUE] /\
  map offset transform_attribute_encodings
  = [m_attribute_format; m_attribute_type; m_attribute_length_or_value;
     m_attribute_value].
Proof. repeat split. Qed.

(** C9: in every state [get_type] is TRANSFORM_ATTRIBUTE and
    [get_next_type] is NO_PAYLOAD, also for the object that a [set_value] or
    a [set_attribute_type] call leaves behind. *)
Theorem transform_attribute_ends_chain this :
  get_type this = TRANSFORM_ATTRIBUTE /\
  get_next_type this = NO_PAYLOAD /\
  (forall host value m,
     get_type (set_value host this value m).1.2 = TRANSFORM_ATTRIBUTE /\
     get_next_type (set_value host this value m).1.2 = NO_PAYLOAD) /\
  (forall t,
     get_type (set_attribute_type this t).2 = TRANSFORM_ATTRIBUTE /\
     get_next_type (set_attribute_type this t).2 = NO_PAYLOAD).
Proof. repeat split. Qed.

(** ** Partial overwrite of the inline member *)

(** C10: [set_value] with a chunk of at most two bytes succeeds and
    overwrites the first [value.len] bytes of the inline member, the others
    keeping what they held; so on an object in TV form, [set_value] of
    [a, b] and then of [c] leaves a two-byte view holding [c, b]. *)
Theorem set_value_short_overwrites_prefix host :
  (forall this value m,
     value_len value <= 2 ->
     exists this' m',
       set_value host this value m = ((SUCCESS, this'), m') /\
       u16_bytes host (attribute_length_or_value this')
       = value ++ drop (length value)
                    (u16_bytes host (attribute_length_or_value this))) /\
  (forall this m (a b c : byte),
     attribute_format this = true ->
     exists this1 m1 this2 m2,
       set_value host this [a; b] m = ((SUCCESS, this1), m1) /\
       set_value host this1 [c] m1 = ((SUCCESS, this2), m2) /\
       get_value this2 = {| ptr := Inline_length_or_value; len := 2 |} /\
       chunk_bytes host this2 m2 (get_value this2) = Some [c; b]).
Proof.
  split.
  - intros this value m Hv.
    destruct (set_value_short_fields host this value m Hv)
      as (this' & m' & Hset & _ & _ & _ & Hbytes).
    exists this', m'. split; assumption.
  - intros this m a b c Hf.
    destruct (set_value_short_fields host this [a; b] m)
      as (this1 & m1 & Hset1 & Hf1 & _ & _ & Hb1);
      [vm_compute; discriminate|].
    destruct (set_value_short_fields host this1 [c] m1)
      as (this2 & m2 & Hset2 & Hf2 & _ & _ & Hb2);
      [vm_compute; discriminate|].
    exists this1, m1, this2, m2.
    split; [exact Hset1|]. split; [exact Hset2|].
    assert (attribute_format this2 = true) as Hf2' by congruence.
    destruct (get_value_inline host this2 m2 Hf2') as [Hview Hread].
    split; [exact Hview|].
    rewrite Hread, Hb2, Hb1.
    pose proof (u16_bytes_length host (attribute_length_or_value this)) as Hl.
    destruct (u16_bytes host (attribute_length_or_value this))
      as [|o0 [|o1 [|o2 old]]]; try discriminate.
    reflexivity.
Qed.

Lemma set_value_short_overwrites_prefix_witness :
  (value_len [x0c] <= 2 /\
   exists this' m',
     set_value Big_endian (inline_AABB Big_endian) [x0c] (one_object [])
     = ((SUCCESS, this'), m') /\
     u16_bytes Big_endian (attribute_length_or_value this') = [x0c; xbb]) /\
  (attribute_format new_attribute = true /\
   exists this1 m1 this2 m2,
     set_value Big_endian new_attribute [xaa; xbb] (one_object [])
     = ((SUCCESS, this1), m1) /\
     set_value Big_endian this1 [x0c] m1 = ((SUCCESS, this2), m2) /\
     get_value this2 = {| ptr := Inline_length_or_value; len := 2 |} /\
     chunk_bytes Big_endian this2 m2 (get_value this2) = Some [x0c; xbb]).
Proof.
  destruct (set_value_short_overwrites_prefix Big_endian) as [Hany Hexample].
  split.
  - split; [vm_compute; discriminate|].
    apply (Hany (inline_AABB Big_endian) [x0c] (one_object [])).
    vm_compute. discriminate.
  - split; [reflexivity|].
    apply (Hexample new_attribute (one_object []) xaa xbb x0c).
    reflexivity.
Defined.

(** ** More on [set_value]: status, flag, round trip *)

(** X1: [set_value] returns OUT_OF_RES exactly when the value is longer than
    two bytes and the clone fails, and SUCCESS otherwise; it makes one
    request to the allocator when the value is longer than two bytes and
    none otherwise. *)
Theorem set_value_status host this value m :
  ((set_value host this value m).1.1 = OUT_OF_RES <->
   value_len value > 2 /\ next_allocation_fails m) /\
  ((set_value host this value m).1.1 = SUCCESS <->
   value_len value <= 2 \/ ~ next_allocation_fails m) /\
  outcomes (set_value host this value m).2
  = (if decide (value_len value > 2) then tail (outcomes m)
     else outcomes m).
Proof.
  destruct (decide (value_len value > 2)) as [Hlen|Hlen].
  - destruct (decide (next_allocation_fails m)) as [Hfail|Hok].
    + rewrite (set_value_fails host this value m Hlen Hfail). simpl.
      repeat split; auto; try discriminate; intros [?|?]; [lia|contradiction].
    + pose proof (set_value_clones host this value m Hlen Hok) as E.
      simpl in E. rewrite E. simpl.
      repeat split; auto; try discriminate; intros [_ ?]; contradiction.
  - rewrite (set_value_short host this value m) by lia. simpl.
    split; [|split].
    + split; [discriminate|]. intros [? _]. lia.
    + split; [intros _; left; lia|reflexivity].
    + unfold free_existing_value.
      destruct (decide (ptr (attribute_value this) ≠ NULL)); reflexivity.
Qed.

Lemma set_value_status_witness :
  (set_value Little_endian new_attribute [x01; x02; x03]
     (one_object [false])).1.1 = OUT_OF_RES /\
  (set_value Little_endian new_attribute [x01; x02; x03]
     (one_object [true])).1.1 = SUCCESS /\
  outcomes (set_value Little_endian new_attribute [xaa; xbb]
              (one_object [false])).2 = [false].
Proof.
  destruct (set_value_status Little_endian new_attribute [x01; x02; x03]
              (one_object [false])) as ([_ Herr] & _ & _).
  destruct (set_value_status Little_endian new_attribute [x01; x02; x03]
              (one_object [true])) as (_ & [_ Hok] & _).
  destruct (set_value_status Little_endian new_attribute [xaa; xbb]
              (one_object [false])) as (_ & _ & Hout).
  split; [apply Herr; split; [vm_compute|]; reflexivity|].
  split; [apply Hok; right; discriminate|exact Hout].
Defined.

(** X2: on an object that holds no buffer (so that nothing is freed before
    the caller's chunk is read), [set_value] of more than two bytes with the
    clone succeeding leaves it in TLV form with a block that was not live
    before; [get_value] then is a view of exactly the bytes given,
    attribute_length_or_value is their number modulo 65536, [get_length] is
    4 plus that, and the type is untouched. *)
Theorem set_value_long_round_trip host this value m :
  ptr (attribute_value this) = NULL ->
  value_len value > 2 ->
  ~ next_allocation_fails m ->
  exists this' m' a,
    set_value host this value m = ((SUCCESS, this'), m') /\
    attribute_format this' = false /\
    blocks m !! a = None /\
    blocks m' = <[a := Bytes value]> (blocks m) /\
    get_value this' = {| ptr := Block a; len := value_len value |} /\
    chunk_bytes host this' m' (get_value this') = Some value /\
    attribute_length_or_value this' = value_len value mod 65536 /\
    get_length this' = 4 + value_len value mod 65536 /\
    attribute_type this' = attribute_type this.
Proof.
  intros Hp Hlen Hok.
  pose proof (set_value_clones host this value m Hlen Hok) as E.
  simpl in E. rewrite E. clear E.
  rewrite (free_existing_value_none _ _ Hp). simpl.
  eexists _, _, (fresh (dom (blocks m))).
  split; [reflexivity|]. split; [reflexivity|].
  split; [apply not_elem_of_dom, is_fresh|].
  split; [reflexivity|]. split; [reflexivity|].
  split; [|split; [reflexivity|split; [|reflexivity]]].
  - unfold chunk_bytes, get_value. simpl. rewrite lookup_insert_eq.
    destruct (decide (value_len value <= value_len value)); [|lia].
    unfold value_len. rewrite Nat2Z.id, firstn_all. reflexivity.
  - unfold get_length, to_u16. simpl. lia.
Qed.

Lemma set_value_long_round_trip_witness :
  ptr (attribute_value (inline_AABB Big_endian)) = NULL /\
  value_len [x01; x02; x03; x04; x05] > 2 /\
  ~ next_allocation_fails (one_object []) /\
  exists this' m' a,
    set_value Big_endian (inline_AABB Big_endian)
      [x01; x02; x03; x04; x05] (one_object [])
    = ((SUCCESS, this'), m') /\
    attribute_format this' = false /\
    blocks (one_object []) !! a = None /\
    blocks m' = <[a := Bytes [x01; x02; x03; x04; x05]]>
                  (blocks (one_object [])) /\
    get_value this' = {| ptr := Block a; len := 5 |} /\
    chunk_bytes Big_endian this' m' (get_value this')
    = Some [x01; x02; x03; x04; x05] /\
    attribute_length_or_value this' = 5 /\
    get_length this' = 9 /\
    attribute_type this' = 0.
Proof.
  split; [reflexivity|].
  split; [vm_compute; reflexivity|]. split; [discriminate|].
  apply (set_value_long_round_trip Big_endian (inline_AABB Big_endian)
           [x01; x02; x03; x04; x05] (one_object [])).
  - reflexivity.
  - vm_compute. reflexivity.
  - discriminate.
Defined.

(** X3: after [set_value] the format flag is TRUE exactly when it was TRUE
    before and no buffer was cloned (the value had at most two bytes, or the
    clone failed): the call can clear the flag, it never sets it. *)
Theorem set_value_flag host this value m :
  attribute_format (set_value host this value m).1.2 = true <->
  attribute_format this = true /\
  (value_len value <= 2 \/ next_allocation_fails m).
Proof.
  destruct (decide (value_len value > 2)) as [Hlen|Hlen].
  - destruct (decide (next_allocation_fails m)) as [Hfail|Hok].
    + rewrite (set_value_fails host this value m Hlen Hfail). simpl.
      split; [intros ->; auto|intros [-> _]; reflexivity].
    + pose proof (set_value_clones host this value m Hlen Hok) as E.
      simpl in E. rewrite E. simpl.
      split; [discriminate|]. intros [_ [?|?]]; [lia|contradiction].
  - rewrite (set_value_short host this value m) by lia. simpl.
    unfold free_existing_value.
    destruct (decide (ptr (attribute_value this) ≠ NULL)); simpl;
      (split; [intros ->; split; [reflexivity|left; lia]
              |intros [-> _]; reflexivity]).
Qed.

Lemma set_value_flag_witness :
  attribute_format
    (set_value Big_endian (inline_AABB Big_endian) [x0c] (one_object [])).1.2
  = true /\
  attribute_format
    (set_value Big_endian long_010203 [x0c] (two_blocks [])).1.2 <> true.
Proof.
  split.
  - apply (set_value_flag Big_endian (inline_AABB Big_endian) [x0c]
             (one_object [])).
    split; [reflexivity|left; vm_compute; discriminate].
  - intros H.
    apply (set_value_flag Big_endian long_010203 [x0c] (two_blocks [])) in H.
    destruct H as [H _]. discriminate H.
Defined.

(** [set_value] does not write TRUE to the format flag. *)
Lemma set_value_keeps_flag_clear host this value m :
  attribute_format this = false ->
  attribute_format (set_value host this value m).1.2 = false.
Proof.
  intros Hf. destruct (decide (value_len value > 2)) as [Hlen|Hlen].
  - destruct (decide (next_allocation_fails m)) as [Hfail|Hok].
    + rewrite (set_value_fails host this value m Hlen Hfail). exact Hf.
    + pose proof (set_value_clones host this value m Hlen Hok) as E.
      simpl in E. rewrite E. reflexivity.
  - rewrite (set_value_short host this value m) by lia. simpl.
    unfold free_existing_value.
    destruct (decide (ptr (attribute_value this) ≠ NULL)); exact Hf.
Qed.

Lemma do_call_flag host c this m :
  attribute_format this = false ->
  attribute_format (do_call host c this m).1 = false.
Proof.
  intros Hf. destruct c as [value|type].
  - unfold do_call, mbind, alloc_bind, mret, alloc_ret.
    pose proof (set_value_keeps_flag_clear host this value m Hf) as Hflag.
    destruct (set_value host this value m) as [[st this'] m']. exact Hflag.
  - exact Hf.
Qed.

(** X4: an object in TLV form stays in TLV form whatever [set_value] and
    [set_attribute_type] calls follow, with values of any length and
    allocations succeeding or not. *)
Theorem TLV_form_is_final host cs this m :
  attribute_format this = false ->
  attribute_format (do_calls host cs this m).1 = false.
Proof.
  revert this m. induction cs as [|c cs IH]; intros this m Hf.
  - exact Hf.
  - simpl. unfold mbind, alloc_bind.
    pose proof (do_call_flag host c this m Hf) as Hc.
    destruct (do_call host c this m) as [this' m']. simpl in Hc.
    apply IH. exact Hc.
Qed.

Lemma TLV_form_is_final_witness :
  attribute_format long_010203 = false /\
  attribute_format
    (do_calls Little_endian
       [call_set_value [xaa; xbb]; call_set_attribute_type 7;
        call_set_value []; call_set_value [x01]]
       long_010203 (two_blocks [])).1 = false.
Proof.
  split; [reflexivity|].
  apply (TLV_form_is_final Little_endian
           [call_set_value [xaa; xbb]; call_set_attribute_type 7;
            call_set_value []; call_set_value [x01]]
           long_010203 (two_blocks [])).
  reflexivity.
Defined.

(** ** The empty chunk *)

Lemma byte_to_of_Z (z : Z) : byte_to_Z (byte_of_Z z) = z mod 256.
Proof.
  unfold byte_to_Z, byte_of_Z.
  pose proof (Z.mod_pos_bound z 256 ltac:(lia)) as Hr.
  pose proof (Byte.to_of_N_option_map (Z.to_N (z mod 256))) as H.
  destruct (Byte.of_N (Z.to_N (z mod 256))) as [b|]; simpl in *.
  - destruct (N.leb (Z.to_N (z mod 256)) 255); [|discriminate].
    inversion H as [Hb]. rewrite Hb. lia.
  - destruct (N.leb (Z.to_N (z mod 256)) 255) eqn:Hle; [discriminate|].
    apply N.leb_gt in Hle. lia.
Qed.

(** Reading the two bytes of a 16-bit number back gives the number. *)
Lemma u16_of_bytes_bytes host (v : Z) :
  0 <= v < 65536 -> u16_of_bytes host (u16_bytes host v) = v.
Proof.
  intros Hv. destruct host; unfold u16_of_bytes, u16_bytes;
    rewrite !byte_to_of_Z;
    rewrite (Z.mod_small (v / 256) 256)
      by (split; [apply Z.div_pos; lia|apply Z.div_lt_upper_bound; lia]);
    pose proof (Z.div_mod v 256 ltac:(lia)); lia.
Qed.

(** X5: on a reachable object that holds no buffer, [set_value] of the empty
    chunk succeeds and changes nothing, neither in the object (the inline
    value is kept, not cleared) nor in the allocator. *)
Theorem set_value_empty_keeps_value host self this m :
  reachable host self this m ->
  ptr (attribute_value this) = NULL ->
  set_value host this [] m = ((SUCCESS, this), m).
Proof.
  intros Hr Hp. apply reachable_consistent in Hr.
  destruct Hr as (_ & _ & _ & Hlov).
  rewrite set_value_short by (vm_compute; discriminate).
  rewrite (free_existing_value_none _ _ Hp).
  change (memcpy_u16 host (attribute_length_or_value this) [] (length []))
    with (u16_of_bytes host (u16_bytes host (attribute_length_or_value this))).
  rewrite u16_of_bytes_bytes by exact Hlov.
  destruct this. reflexivity.
Qed.

Lemma set_value_empty_keeps_value_witness :
  reachable Big_endian (Block 1) (inline_AABB Big_endian) (one_object [])
  /\ ptr (attribute_value (inline_AABB Big_endian)) = NULL
  /\ set_value Big_endian (inline_AABB Big_endian) [] (one_object [])
     = ((SUCCESS, inline_AABB Big_endian), one_object []).
Proof.
  split; [apply reachable_inline_AABB|]. split; [reflexivity|].
  apply (set_value_empty_keeps_value Big_endian (Block 1)
           (inline_AABB Big_endian) (one_object [])).
  - apply reachable_inline_AABB.
  - reflexivity.
Defined.

(** ** Creation *)

(** X6: [transform_attribute_create] returns NULL exactly when the
    allocation fails, and then no block is taken; otherwise the object is at
    an address that was not live, which now holds its block, and it reads as
    an attribute in TV form of type 0 whose value is the two bytes 00 00 and
    whose length on the wire is 4.  In both cases nothing is freed. *)
Theorem transform_attribute_create_outcome host m :
  let r := transform_attribute_create m in
  (r.1 = None <-> next_allocation_fails m) /\
  (r.1 = None -> blocks r.2 = blocks m) /\
  (forall self this,
     r.1 = Some (self, this) ->
     exists s,
       self = Block s /\ blocks m !! s = None /\
       blocks r.2 = <[s := Thing]> (blocks m) /\
       attribute_format this = true /\
       get_attribute_type this = 0 /\
       chunk_bytes host this r.2 (get_value this) = Some [x00; x00] /\
       get_length this = 4) /\
  free_log r.2 = free_log m /\
  bad_frees r.2 = bad_frees m /\
  outcomes r.2 = tail (outcomes m).
Proof.
  unfold transform_attribute_create, mbind, alloc_bind, mret, alloc_ret,
    allocator_alloc_thing, allocate, next_allocation_fails.
  destruct (outcomes m) as [|[] rest] eqn:Ho; simpl.
  all: repeat split; try discriminate; auto.
  all: try (intros self this H; inversion H; subst; clear H;
            eexists; split; [reflexivity|];
            split; [apply not_elem_of_dom, is_fresh|];
            split; [reflexivity|]; split; [reflexivity|];
            split; [reflexivity|]; split; [|reflexivity];
            destruct host; reflexivity).
Qed.

Lemma transform_attribute_create_outcome_witness :
  ((transform_attribute_create (empty_allocator [false])).1 = None /\
   blocks (transform_attribute_create (empty_allocator [false])).2 = ∅) /\
  exists s,
    Block 1 = Block s /\ (∅ : gmap positive block_t) !! s = None /\
    blocks (transform_attribute_create (empty_allocator [])).2
    = <[s := Thing]> ∅ /\
    attribute_format new_attribute = true /\
    get_attribute_type new_attribute = 0 /\
    chunk_bytes Big_endian new_attribute
      (transform_attribute_create (empty_allocator [])).2
      (get_value new_attribute) = Some [x00; x00] /\
    get_length new_attribute = 4.
Proof.
  split.
  - destruct (transform_attribute_create_outcome Big_endian
                (empty_allocator [false])) as (Hnone & Hsame & _).
    split; [apply Hnone; reflexivity|].
    apply Hsame. apply Hnone. reflexivity.
  - destruct (transform_attribute_create_outcome Big_endian
                (empty_allocator [])) as (_ & _ & Hsome & _).
    apply (Hsome (Block 1) new_attribute). reflexivity.
Defined.

(** ** Invariants of reachable states *)

(** X7: in every reachable state in which the object holds a buffer, the
    object is in TLV form, the buffer is a live block other than the object's
    own, it has more than two bytes, [get_value] is a view of all of them,
    and attribute_length_or_value is their number modulo 65536, so that
    [get_length] is 4 plus the number of bytes of the value whenever that
    number is below 65536. *)
Theorem reachable_buffer_held host self this m a :
  reachable host self this m ->
  ptr (attribute_value this) = Block a ->
  attribute_format this = false /\
  self ≠ Block a /\
  exists bs,
    blocks m !! a = Some (Bytes bs) /\
    value_len bs > 2 /\
    get_value this = {| ptr := Block a; len := value_len bs |} /\
    chunk_bytes host this m (get_value this) = Some bs /\
    attribute_length_or_value this = value_len bs mod 65536 /\
    (value_len bs < 65536 -> get_length this = 4 + value_len bs).
Proof.
  intros Hr Hp. apply reachable_consistent in Hr.
  destruct Hr as ((s & -> & Hs) & Hbuf & _).
  unfold buffer_consistent in Hbuf. rewrite Hp in Hbuf.
  destruct Hbuf as (bs & Hbs & Hl & Hlen & Hf & Hlov).
  split; [exact Hf|]. split; [intros [= ->]; congruence|].
  exists bs. split; [exact Hbs|]. split; [exact Hlen|].
  assert (get_value this = {| ptr := Block a; len := value_len bs |}) as Hg
    by (unfold get_value; rewrite Hf, Hp, Hl; reflexivity).
  split; [exact Hg|]. split; [|split; [exact Hlov|]].
  - rewrite Hg. unfold chunk_bytes. simpl. rewrite Hbs.
    destruct (decide (value_len bs <= value_len bs)); [|lia].
    unfold value_len. rewrite Nat2Z.id, firstn_all. reflexivity.
  - intros Hsmall. rewrite (get_length_TLV _ Hf), Hlov. unfold to_u16.
    rewrite Z.mod_small; [reflexivity|]. unfold value_len in *. lia.
Qed.

Lemma reachable_buffer_held_witness :
  reachable Little_endian (Block 1) long_010203 (two_blocks []) /\
  ptr (attribute_value long_010203) = Block 2 /\
  attribute_format long_010203 = false /\
  Block 1 ≠ Block 2 /\
  exists bs,
    blocks (two_blocks []) !! 2%positive = Some (Bytes bs) /\
    value_len bs > 2 /\
    get_value long_010203 = {| ptr := Block 2; len := value_len bs |} /\
    chunk_bytes Little_endian long_010203 (two_blocks [])
      (get_value long_010203) = Some bs /\
    attribute_length_or_value long_010203 = value_len bs mod 65536 /\
    (value_len bs < 65536 -> get_length long_010203 = 4 + value_len bs).
Proof.
  split; [apply reachable_long_010203|]. split; [reflexivity|].
  apply (reachable_buffer_held Little_endian (Block 1) long_010203
           (two_blocks []) 2%positive).
  - apply reachable_long_010203.
  - reflexivity.
Defined.

(** X8: in every reachable state the chunk [get_value] returns can be read
    in full: it is the two bytes of the inline member in TV form, and in
    TLV form the live buffer, or the empty chunk (NULL, 0) when none is
    held.  It never points to a freed block. *)
Theorem get_value_readable host self this m :
  reachable host self this m ->
  exists bs,
    chunk_bytes host this m (get_value this) = Some bs /\
    value_len bs = len (get_value this) /\
    (attribute_format this = true -> value_len bs = 2) /\
    (attribute_format this = false ->
     ptr (attribute_value this) = NULL -> bs = []).
Proof.
  intros Hr. destruct (attribute_format this) eqn:Hf.
  - destruct (get_value_inline host this m Hf) as [Hg Hread].
    exists (u16_bytes host (attribute_length_or_value this)).
    split; [exact Hread|]. rewrite Hg. unfold value_len.
    rewrite u16_bytes_length. repeat split; try reflexivity; discriminate.
  - destruct (ptr (attribute_value this)) as [|a|] eqn:Hp.
    + pose proof (reachable_consistent _ _ _ _ Hr) as (_ & Hbuf & _).
      unfold buffer_consistent in Hbuf. rewrite Hp in Hbuf.
      exists []. unfold chunk_bytes, get_value. rewrite Hf, Hp, Hbuf. simpl.
      repeat split; try reflexivity; discriminate.
    + pose proof (reachable_consistent _ _ _ _ Hr) as (_ & Hbuf & _).
      unfold buffer_consistent in Hbuf. rewrite Hp in Hbuf.
      destruct Hbuf as (bs & Hbs & Hl & _).
      exists bs. unfold chunk_bytes, get_value. rewrite Hf, Hp, Hl. simpl.
      rewrite Hbs. destruct (decide (value_len bs <= value_len bs)); [|lia].
      unfold value_len. rewrite Nat2Z.id, firstn_all.
      repeat split; try reflexivity; discriminate.
    + pose proof (reachable_consistent _ _ _ _ Hr) as (_ & Hbuf & _).
      unfold buffer_consistent in Hbuf. rewrite Hp in Hbuf. contradiction.
Qed.

Lemma get_value_readable_witness :
  reachable Big_endian (Block 1) (stale_TLV Big_endian) (buffer_released [])
  /\ exists bs,
       chunk_bytes Big_endian (stale_TLV Big_endian) (buffer_released [])
         (get_value (stale_TLV Big_endian)) = Some bs /\
       value_len bs = len (get_value (stale_TLV Big_endian)) /\
       (false = true -> value_len bs = 2) /\
       (false = false -> NULL = NULL -> bs = []).
Proof.
  split; [apply reachable_stale_TLV|].
  apply (get_value_readable Big_endian (Block 1) (stale_TLV Big_endian)
           (buffer_released [])).
  apply reachable_stale_TLV.
Defined.

(** X9: in every reachable state the stored attribute type is a 15-bit
    number (bit 15 is clear) and attribute_length_or_value a 16-bit one. *)
Theorem reachable_members_in_range host self this m :
  reachable host self this m ->
  0 <= get_attribute_type this <= 32767 /\
  Z.testbit (get_attribute_type this) 15 = false /\
  0 <= attribute_length_or_value this < 65536.
Proof.
  intros Hr. apply reachable_consistent in Hr.
  destruct Hr as (_ & _ & Hty & Hlov). unfold get_attribute_type.
  split; [exact Hty|]. split; [|exact Hlov].
  destruct (Z.eq_dec (attribute_type this) 0) as [->|Hnz]; [reflexivity|].
  apply Z.bits_above_log2; [lia|].
  apply Z.log2_lt_pow2; [lia|]. change (2 ^ 15) with 32768. lia.
Qed.

Lemma reachable_members_in_range_witness :
  reachable Big_endian (Block 1) (inline_AABB Big_endian) (one_object []) /\
  0 <= get_attribute_type (inline_AABB Big_endian) <= 32767 /\
  Z.testbit (get_attribute_type (inline_AABB Big_endian)) 15 = false /\
  0 <= attribute_length_or_value (inline_AABB Big_endian) < 65536.
Proof.
  split; [apply reachable_inline_AABB|].
  apply (reachable_members_in_range Big_endian (Block 1)
           (inline_AABB Big_endian) (one_object [])).
  apply reachable_inline_AABB.
Defined.

(** ** The blocks an object owns *)

Lemma owns_release b0 s this m :
  owns b0 s this m ->
  release (ptr (attribute_value this)) (blocks m) = <[s := Thing]> b0 /\
  is_live (Block s) m = true /\
  (ptr (attribute_value this) ≠ NULL ->
   is_live (ptr (attribute_value this)) m = true).
Proof.
  intros [Hs Hb].
  destruct (ptr (attribute_value this)) as [|a|]; [| |contradiction].
  - simpl. rewrite Hb. split; [reflexivity|].
    split; [|intros H; contradiction].
    rewrite bool_decide_eq_true_2; [reflexivity|].
    rewrite lookup_insert_eq. eauto.
  - destruct Hb as (bs & Hne & Ha & Hb). simpl. rewrite Hb.
    split; [|split].
    + apply delete_insert_id. rewrite lookup_insert_ne by done. exact Ha.
    + rewrite bool_decide_eq_true_2; [reflexivity|].
      rewrite lookup_insert_ne by done. rewrite lookup_insert_eq. eauto.
    + intros _. rewrite bool_decide_eq_true_2; [reflexivity|].
      rewrite lookup_insert_eq. eauto.
Qed.

Lemma free_existing_value_owns b0 s this m :
  owns b0 s this m ->
  let r := free_existing_value this m in
  blocks r.2 = <[s := Thing]> b0 /\
  ptr (attribute_value r.1) = NULL /\
  bad_frees r.2 = bad_frees m.
Proof.
  intros Ho. destruct (owns_release _ _ _ _ Ho) as (Hrel & _ & Hlive).
  simpl. destruct (decide (ptr (attribute_value this) = NULL)) as [Hp|Hp].
  - rewrite (free_existing_value_none _ _ Hp). simpl.
    rewrite Hp in Hrel. simpl in Hrel. auto.
  - rewrite (free_existing_value_held _ _ Hp). simpl.
    rewrite (Hlive Hp). auto.
Qed.

Lemma create_owns m self this m1 :
  transform_attribute_create m = (Some (self, this), m1) ->
  exists s,
    self = Block s /\ owns (blocks m) s this m1 /\
    bad_frees m1 = bad_frees m.
Proof.
  unfold transform_attribute_create, mbind, alloc_bind, mret, alloc_ret,
    allocator_alloc_thing, allocate.
  destruct (outcomes m) as [|[] rest]; simpl; intros H; inversion H; subst;
    eexists; (split; [reflexivity|]); (split; [|reflexivity]);
    (split; [apply not_elem_of_dom, is_fresh|reflexivity]).
Qed.

Lemma set_value_owns host b0 s this value m :
  owns b0 s this m ->
  owns b0 s (set_value host this value m).1.2 (set_value host this value m).2
  /\ bad_frees (set_value host this value m).2 = bad_frees m.
Proof.
  intros Ho. pose proof Ho as [Hs _].
  destruct (free_existing_value_owns _ _ _ _ Ho) as (Hb & Hp & Hbad).
  destruct (decide (value_len value > 2)) as [Hlen|Hlen].
  - destruct (decide (next_allocation_fails m)) as [Hfail|Hok].
    + rewrite (set_value_fails host this value m Hlen Hfail). simpl.
      split; [|exact Hbad]. split; [exact Hs|]. simpl. exact Hb.
    + pose proof (set_value_clones host this value m Hlen Hok) as E.
      simpl in E. rewrite E. clear E. simpl.
      split; [|exact Hbad]. split; [exact Hs|]. simpl.
      set (m0 := (free_existing_value this m).2) in *.
      pose proof (is_fresh (dom (blocks m0))) as Hfresh.
      rewrite not_elem_of_dom, Hb in Hfresh.
      apply lookup_insert_None in Hfresh as [Ha Hne].
      exists value. rewrite Hb. split; [congruence|]. split; [exact Ha|].
      reflexivity.
  - rewrite (set_value_short host this value m) by lia. simpl.
    split; [|exact Hbad]. split; [exact Hs|]. simpl. rewrite Hp. exact Hb.
Qed.

Lemma do_calls_owns host b0 s cs this m :
  owns b0 s this m ->
  owns b0 s (do_calls host cs this m).1 (do_calls host cs this m).2 /\
  bad_frees (do_calls host cs this m).2 = bad_frees m.
Proof.
  revert this m. induction cs as [|c cs IH]; intros this m Ho.
  - simpl. auto.
  - simpl. unfold mbind, alloc_bind.
    assert (owns b0 s (do_call host c this m).1 (do_call host c this m).2 /\
            bad_frees (do_call host c this m).2 = bad_frees m) as [Ho1 Hb1].
    { destruct c as [value|type].
      - unfold do_call, mbind, alloc_bind, mret, alloc_ret.
        pose proof (set_value_owns host b0 s this value m Ho) as H.
        destruct (set_value host this value m) as [[st this'] m']. exact H.
      - simpl. split; [exact Ho|reflexivity]. }
    destruct (do_call host c this m) as [this1 m1]. simpl in *.
    destruct (IH this1 m1 Ho1) as [Ho2 Hb2].
    split; [exact Ho2|congruence].
Qed.

(** X10: at every point of its life the object owns its own block and the
    buffer [attribute_value] points to, and nothing else: whatever calls
    were made since creation, with allocations succeeding or not, both
    blocks are live, taking them away leaves the blocks that were live
    before creation, and no pointer was freed that was not live. *)
Theorem object_owns_its_blocks host m0 self this m1 cs this' m' :
  transform_attribute_create m0 = (Some (self, this), m1) ->
  do_calls host cs this m1 = (this', m') ->
  release self (release (ptr (attribute_value this')) (blocks m'))
  = blocks m0 /\
  is_live self m' = true /\
  (ptr (attribute_value this') ≠ NULL ->
   is_live (ptr (attribute_value this')) m' = true) /\
  bad_frees m' = bad_frees m0.
Proof.
  intros Hc Hcalls.
  destruct (create_owns _ _ _ _ Hc) as (s & -> & Ho & Hbad).
  destruct (do_calls_owns host _ _ cs _ _ Ho) as [Ho' Hbad'].
  rewrite Hcalls in Ho', Hbad'. simpl in Ho', Hbad'.
  destruct (owns_release _ _ _ _ Ho') as (Hrel & Hself & Hbuf).
  split; [|split; [exact Hself|split; [exact Hbuf|congruence]]].
  rewrite Hrel. simpl. apply delete_insert_id. apply Ho'.
Qed.

(** X11: an object's life leaks nothing and frees nothing twice: after
    creation, any sequence of [set_value] and [set_attribute_type] calls
    (allocations succeeding or not) and [destroy], the live blocks are
    those that were live before the object was created, and every pointer
    freed on the way was a live block. *)
Theorem object_life_leaks_nothing host m0 self this m1 cs this' m' :
  transform_attribute_create m0 = (Some (self, this), m1) ->
  do_calls host cs this m1 = (this', m') ->
  exists m'',
    destroy self this' m' = (SUCCESS, m'') /\
    blocks m'' = blocks m0 /\
    bad_frees m'' = bad_frees m0.
Proof.
  intros Hc Hcalls.
  destruct (create_owns _ _ _ _ Hc) as (s & -> & Ho & Hbad).
  destruct (do_calls_owns host _ _ cs _ _ Ho) as [Ho' Hbad'].
  rewrite Hcalls in Ho', Hbad'. simpl in Ho', Hbad'.
  destruct (owns_release _ _ _ _ Ho') as (Hrel & Hself & Hbuf).
  rewrite destroy_computes. eexists. split; [reflexivity|].
  assert (delete s (<[s := Thing]> (blocks m0)) = blocks m0) as Hdel
    by (apply delete_insert_id, Ho').
  destruct Ho' as [Hs Hb].
  destruct (ptr (attribute_value this')) as [|a|] eqn:Hp; [| |contradiction].
  - destruct (decide (NULL = NULL)); [|contradiction]. simpl.
    rewrite Hb, lookup_insert_eq.
    rewrite bool_decide_eq_true_2 by eauto.
    split; [exact Hdel|congruence].
  - destruct (decide (Block a = NULL)); [discriminate|]. simpl.
    destruct Hb as (bs & Hne & Ha & Hb). rewrite Hb.
    rewrite (delete_insert_id (<[s := Thing]> (blocks m0)) a)
      by (rewrite lookup_insert_ne by done; exact Ha).
    rewrite !lookup_insert_eq.
    rewrite !bool_decide_eq_true_2 by eauto.
    split; [exact Hdel|congruence].
Qed.

Lemma object_owns_its_blocks_witness :
  transform_attribute_create (empty_allocator [true; true; false])
  = (Some (Block 1, new_attribute), one_object [true; false]) /\
  let r :=
    do_calls Little_endian
      [call_set_value [x01; x02; x03]; call_set_attribute_type 0x8005;
       call_set_value [x01; x02; x03; x04; x05]]
      new_attribute (one_object [true; false]) in
  release (Block 1) (release (ptr (attribute_value r.1)) (blocks r.2)) = ∅ /\
  is_live (Block 1) r.2 = true /\
  (ptr (attribute_value r.1) ≠ NULL ->
   is_live (ptr (attribute_value r.1)) r.2 = true) /\
  bad_frees r.2 = [].
Proof.
  split; [reflexivity|].
  apply (object_owns_its_blocks Little_endian
           (empty_allocator [true; true; false]) (Block 1) new_attribute
           (one_object [true; false])
           [call_set_value [x01; x02; x03]; call_set_attribute_type 0x8005;
            call_set_value [x01; x02; x03; x04; x05]]).
  - reflexivity.
  - apply surjective_pairing.
Defined.

Lemma object_life_leaks_nothing_witness :
  transform_attribute_create (empty_allocator [true; true; false])
  = (Some (Block 1, new_attribute), one_object [true; false]) /\
  let r :=
    do_calls Little_endian
      [call_set_value [x01; x02; x03]; call_set_attribute_type 0x8005;
       call_set_value [x01; x02; x03; x04; x05]; call_set_value [xaa; xbb]]
      new_attribute (one_object [true; false]) in
  exists m'',
    destroy (Block 1) r.1 r.2 = (SUCCESS, m'') /\
    blocks m'' = ∅ /\
    bad_frees m'' = [].
Proof.
  split; [reflexivity|].
  apply (object_life_leaks_nothing Little_endian
           (empty_allocator [true; true; false]) (Block 1) new_attribute
           (one_object [true; false])
           [call_set_value [x01; x02; x03]; call_set_attribute_type 0x8005;
            call_set_value [x01; x02; x03; x04; x05];
            call_set_value [xaa; xbb]]).
  - reflexivity.
  - apply surjective_pairing.
Defined.

(** ** Views do not survive [set_value] *)

(** X12: [get_value] hands out the buffer itself, and [set_value] frees it:
    when a reachable object holds a buffer and [set_value] is called with a
    value of at most two bytes, or with a longer one whose clone fails, the
    buffer is freed by the call and is no longer live afterwards, so the
    chunk [get_value] returned before the call cannot be read any more. *)
Theorem view_dangles_after_set_value host self this m a value :
  reachable host self this m ->
  ptr (attribute_value this) = Block a ->
  value_len value <= 2 \/ next_allocation_fails m ->
  ptr (get_value this) = Block a /\
  free_log (set_value host this value m).2 = Block a :: free_log m /\
  is_live (Block a) (set_value host this value m).2 = false /\
  chunk_bytes host (set_value host this value m).1.2
    (set_value host this value m).2 (get_value this) = None.
Proof.
  intros Hr Hp Hcase.
  pose proof (reachable_consistent _ _ _ _ Hr) as (_ & Hbuf & _).
  unfold buffer_consistent in Hbuf. rewrite Hp in Hbuf.
  destruct Hbuf as (bs & _ & Hl & _ & Hf & _).
  assert (get_value this = {| ptr := Block a; len := value_len bs |}) as Hg
    by (unfold get_value; rewrite Hf, Hp, Hl; reflexivity).
  assert (Block a ≠ NULL) as Hnn by discriminate. rewrite <- Hp in Hnn.
  assert (blocks (set_value host this value m).2 !! a = None /\
          free_log (set_value host this value m).2 = Block a :: free_log m)
    as [Hgone Hlog].
  { destruct (decide (value_len value > 2)) as [Hlen|Hlen].
    - destruct Hcase as [?|Hfail]; [lia|].
      rewrite (set_value_fails host this value m Hlen Hfail).
      rewrite (free_existing_value_held _ _ Hnn). simpl. rewrite Hp. simpl.
      split; [apply lookup_delete_eq|reflexivity].
    - rewrite (set_value_short host this value m) by lia.
      rewrite (free_existing_value_held _ _ Hnn). simpl. rewrite Hp. simpl.
      split; [apply lookup_delete_eq|reflexivity]. }
  rewrite Hg. simpl. split; [reflexivity|]. split; [exact Hlog|].
  unfold chunk_bytes. simpl. rewrite Hgone.
  split; [|reflexivity].
  apply bool_decide_eq_false_2. intros [x Hx]. discriminate.
Qed.

Lemma view_dangles_after_set_value_witness :
  reachable Little_endian (Block 1) long_010203 (two_blocks []) /\
  ptr (attribute_value long_010203) = Block 2 /\
  (value_len [xaa; xbb] <= 2 \/ next_allocation_fails (two_blocks [])) /\
  ptr (get_value long_010203) = Block 2 /\
  free_log
    (set_value Little_endian long_010203 [xaa; xbb] (two_blocks [])).2
  = [Block 2] /\
  is_live (Block 2)
    (set_value Little_endian long_010203 [xaa; xbb] (two_blocks [])).2
  = false /\
  chunk_bytes Little_endian
    (set_value Little_endian long_010203 [xaa; xbb] (two_blocks [])).1.2
    (set_value Little_endian long_010203 [xaa; xbb] (two_blocks [])).2
    (get_value long_010203) = None.
Proof.
  split; [apply reachable_long_010203|]. split; [reflexivity|].
  split; [left; vm_compute; discriminate|].
  apply (view_dangles_after_set_value Little_endian (Block 1) long_010203
           (two_blocks []) 2%positive [xaa; xbb]).
  - apply reachable_long_010203.
  - reflexivity.
  - left. vm_compute. discriminate.
Defined.

(** ** More on the attribute type *)

(** X13: for a 16-bit [t], reading the type back after
    [set_attribute_type] gives [t] itself exactly when [t] is at most 32767;
    bit 15 of [t] is ignored, so [t] and [t + 32768] store the same type;
    and storing what [get_attribute_type] returns changes nothing. *)
Theorem set_attribute_type_round_trip this (t : Z) :
  0 <= t < 65536 ->
  (get_attribute_type (set_attribute_type this t).2 = t <-> t <= 32767) /\
  (t <= 32767 ->
   set_attribute_type this (t + 32768) = set_attribute_type this t) /\
  set_attribute_type (set_attribute_type this t).2
    (get_attribute_type (set_attribute_type this t).2)
  = set_attribute_type this t.
Proof.
  intros Ht.
  assert (forall z, Z.land z 0x7FFF = z mod 32768) as Hland
    by (intros z; change 0x7FFF with (Z.ones 15);
        rewrite Z.land_ones by lia; reflexivity).
  unfold set_attribute_type, get_attribute_type, with_attribute_type. simpl.
  rewrite !Hland. split; [|split].
  - pose proof (Z.mod_pos_bound t 32768 ltac:(lia)).
    split; [lia|]. intros Hle. apply Z.mod_small. lia.
  - intros Hle. replace (t + 32768) with (t + 1 * 32768) by lia.
    rewrite Z.mod_add by lia. reflexivity.
  - rewrite Z.mod_mod by lia. reflexivity.
Qed.

Lemma set_attribute_type_round_trip_witness :
  0 <= 14 < 65536 /\
  (get_attribute_type (set_attribute_type new_attribute 14).2 = 14
   <-> 14 <= 32767) /\
  (14 <= 32767 ->
   set_attribute_type new_attribute (14 + 32768)
   = set_attribute_type new_attribute 14) /\
  set_attribute_type (set_attribute_type new_attribute 14).2
    (get_attribute_type (set_attribute_type new_attribute 14).2)
  = set_attribute_type new_attribute 14.
Proof.
  split; [lia|]. apply (set_attribute_type_round_trip new_attribute 14). lia.
Defined.

(** X14: [set_attribute_type] and [set_value] do not interfere: setting the
    type before the value or after it gives the same status, the same object
    and the same allocator. *)
Theorem set_attribute_type_set_value_commute host this value m (t : Z) :
  set_value host (set_attribute_type this t).2 value m
  = (((set_value host this value m).1.1,
      (set_attribute_type (set_value host this value m).1.2 t).2),
     (set_value host this value m).2).
Proof.
  unfold set_value, set_attribute_type, mbind, alloc_bind, mret, alloc_ret,
    allocator_clone_bytes, allocate.
  cbn [snd with_attribute_type attribute_value].
  destruct (decide (ptr (attribute_value this) ≠ NULL));
    cbn [allocator_free outcomes];
    (destruct (decide (value_len value > 2)); [|reflexivity]);
    destruct (outcomes m) as [|[] rest]; reflexivity.
Qed.
